(** * Oracle vote messages of terra-project/core: a shallow embedding

    The embedded code is the message layer of the oracle module
    (package [types]: [MsgExchangeRatePrevote], [MsgExchangeRateVote],
    [MsgDelegateFeedConsent]), the oracle commands of the client (package
    [cli]), and the weighted median of the tally as the specification
    describes it.

    Go values are represented as follows:
    - [string] is a sequence of bytes: Rocq's [string];
    - [[]byte], [sdk.AccAddress] and [sdk.ValAddress] are [list byte];
    - [int] and [int64] results ([len], [BitLen]) are [Z];
    - [sdk.Dec] is the [big.Int] it wraps (the value scaled by 10^18): [Z];
    - an [error] result is [option error], [None] being Go's [nil]. *)

From Stdlib Require Import ZArith NArith List String Ascii Lia Bool DecimalString.
From Stdlib.Strings Require Import Byte.
From stdpp Require Import base gmap strings list sorting.

Local Open Scope Z_scope.

(** ** Library functions the messages call *)

(** Go's builtin [len] on strings and on byte slices. *)
Definition len_string (s : string) : Z := Z.of_nat (String.length s).
Definition len_bytes (b : list byte) : Z := Z.of_nat (length b).

Definition byte_of_Z (z : Z) : byte :=
  match Byte.of_N (Z.to_N (z mod 256)) with
  | Some b => b
  | None => x00
  end.

Definition Z_of_byte (b : byte) : Z := Z.of_N (Byte.to_N b).

(** [encoding/hex]. *)
Module hex.

Inductive error :=
| ErrLength                        (* odd length hex string *)
| InvalidByteError (c : ascii).    (* invalid byte *)

(** [reverseHexTable]: the value of a hexadecimal digit, of either case. *)
Definition fromHexChar (c : ascii) : option Z :=
  let n := Z.of_N (N_of_ascii c) in
  if (48 <=? n) && (n <=? 57) then Some (n - 48)
  else if (97 <=? n) && (n <=? 102) then Some (n - 97 + 10)
  else if (65 <=? n) && (n <=? 70) then Some (n - 65 + 10)
  else None.

(** [Decode]: pairs of digits are decoded from the left; the first
    character that is no digit stops the loop, and a trailing single
    character is reported as an invalid byte if it is no digit and as an
    odd length otherwise.  The bytes decoded so far are returned with the
    error. *)
Fixpoint DecodeString (s : string) : list byte * option error :=
  match s with
  | EmptyString => ([], None)
  | String p EmptyString =>
      match fromHexChar p with
      | None => ([], Some (InvalidByteError p))
      | Some _ => ([], Some ErrLength)
      end
  | String p (String q rest) =>
      match fromHexChar p with
      | None => ([], Some (InvalidByteError p))
      | Some a =>
          match fromHexChar q with
          | None => ([], Some (InvalidByteError q))
          | Some b =>
              let '(bz, err) := DecodeString rest in
              (byte_of_Z (Z.lor (Z.shiftl a 4) b) :: bz, err)
          end
      end
  end.

End hex.

(** [tendermint/crypto/tmhash]. *)
Module tmhash.

(** [Size] of a SHA-256 digest and the [TruncatedSize] of the first
    twenty bytes kept of it. *)
Definition Size : Z := 32.
Definition TruncatedSize : Z := 20.

End tmhash.

(** [cosmos-sdk/types]. *)
Module sdk.

Definition AccAddress := list byte.
Definition ValAddress := list byte.

(** [Empty] of both address types: no byte at all. *)
Definition Empty (a : list byte) : bool :=
  match a with
  | [] => true
  | _ :: _ => false
  end.

Definition Dec := Z.

(** [Precision] of a decimal and the bits it takes
    ([Ceiling[Log2[999 999 999 999 999 999]]]). *)
Definition Precision : Z := 18.
Definition DecimalPrecisionBits : Z := 60.

(** [BitLen] of [big.Int], promoted to [Dec]: the length in bits of the
    absolute value; that of 0 is 0. *)
Definition BitLen (d : Dec) : Z :=
  match d with
  | Z0 => 0
  | Zpos p => Z.pos (Pos.size p)
  | Zneg p => Z.pos (Pos.size p)
  end.

End sdk.

(** ** Errors of the oracle module

    [sdkerrors.Wrap] attaches a description to a registered error; the
    description is kept here as the value it is printed from. *)
Inductive error :=
| ErrInvalidHash (cause : hex.error)
| ErrInvalidHashLength (l : Z)
| ErrUnknowDenom
| ErrInvalidAddress
| ErrInvalidExchangeRate (rate : sdk.Dec)
| ErrInvalidSaltLength (l : Z)
| ErrVerificationFailed.

(** The registered error an [error] value is or wraps. *)
Inductive kind :=
| InvalidHash
| InvalidHashLength
| UnknownDenom
| InvalidAddress
| InvalidExchangeRateMagnitude
| InvalidSaltLength
| VerificationFailed.

Definition kind_of (e : error) : kind :=
  match e with
  | ErrInvalidHash _ => InvalidHash
  | ErrInvalidHashLength _ => InvalidHashLength
  | ErrUnknowDenom => UnknownDenom
  | ErrInvalidAddress => InvalidAddress
  | ErrInvalidExchangeRate _ => InvalidExchangeRateMagnitude
  | ErrInvalidSaltLength _ => InvalidSaltLength
  | ErrVerificationFailed => VerificationFailed
  end.

(** [fails_with r k]: the result [r] is an error of kind [k]. *)
Definition fails_with (r : option error) (k : kind) : Prop :=
  exists e, r = Some e /\ kind_of e = k.

(** ** MsgExchangeRatePrevote *)
Module MsgExchangeRatePrevote.

Record t := {
  Hash : string;            (* hex string *)
  Denom : string;
  Feeder : sdk.AccAddress;
  Validator : sdk.ValAddress
}.

Definition NewMsgExchangeRatePrevote (VoteHash denom : string)
    (feederAddress : sdk.AccAddress) (valAddress : sdk.ValAddress) : t :=
  {| Hash := VoteHash; Denom := denom;
     Feeder := feederAddress; Validator := valAddress |}.

Definition Type_ (msg : t) : string := "exchangerateprevote".

Definition GetSigners (msg : t) : list sdk.AccAddress := [Feeder msg].

Definition ValidateBasic (msg : t) : option error :=
  let '(bz, err) := hex.DecodeString (Hash msg) in
  match err with
  | Some e => Some (ErrInvalidHash e)
  | None =>
      let l := len_bytes bz in
      if negb (l =? tmhash.TruncatedSize) then Some (ErrInvalidHashLength l)
      else if len_string (Denom msg) =? 0 then Some ErrUnknowDenom
      else if sdk.Empty (Feeder msg) then Some ErrInvalidAddress
      else if sdk.Empty (Validator msg) then Some ErrInvalidAddress
      else None
  end.

End MsgExchangeRatePrevote.

(** ** MsgExchangeRateVote *)
Module MsgExchangeRateVote.

Record t := {
  ExchangeRate : sdk.Dec;
  Salt : string;
  Denom : string;
  Feeder : sdk.AccAddress;
  Validator : sdk.ValAddress
}.

Definition NewMsgExchangeRateVote (rate : sdk.Dec) (salt denom : string)
    (feederAddress : sdk.AccAddress) (valAddress : sdk.ValAddress) : t :=
  {| ExchangeRate := rate; Salt := salt; Denom := denom;
     Feeder := feederAddress; Validator := valAddress |}.

Definition Type_ (msg : t) : string := "exchangeratevote".

Definition GetSigners (msg : t) : list sdk.AccAddress := [Feeder msg].

Definition ValidateBasic (msg : t) : option error :=
  if len_string (Denom msg) =? 0 then Some ErrUnknowDenom
  else if sdk.Empty (Feeder msg) then Some ErrInvalidAddress
  else if sdk.Empty (Validator msg) then Some ErrInvalidAddress
  else if sdk.BitLen (ExchangeRate msg) >? 100 + sdk.DecimalPrecisionBits
    then Some (ErrInvalidExchangeRate (ExchangeRate msg))
  else
    let l := len_string (Salt msg) in
    if (l >? 4) || (l <? 1) then Some (ErrInvalidSaltLength l)
    else None.

End MsgExchangeRateVote.

(** ** MsgDelegateFeedConsent *)
Module MsgDelegateFeedConsent.

Record t := {
  Operator : sdk.ValAddress;
  Delegate : sdk.AccAddress
}.

Definition NewMsgDelegateFeedConsent (operatorAddress : sdk.ValAddress)
    (feederAddress : sdk.AccAddress) : t :=
  {| Operator := operatorAddress; Delegate := feederAddress |}.

Definition Type_ (msg : t) : string := "delegatefeeder".

(** The conversion [sdk.AccAddress(msg.Operator)] keeps the bytes. *)
Definition GetSigners (msg : t) : list sdk.AccAddress :=
  [(Operator msg : sdk.AccAddress)].

Definition ValidateBasic (msg : t) : option error :=
  if sdk.Empty (Operator msg) then Some ErrInvalidAddress
  else if sdk.Empty (Delegate msg) then Some ErrInvalidAddress
  else None.

End MsgDelegateFeedConsent.

(** ** The tally: voting-power-weighted median *)
Module tally.

(** Modelled from the spec: the ballot of the tally engine is not among the
    sources.  A ballot is the collection of the revealed (exchangeRate,
    votingPower) pairs of a denomination. *)
Record VoteForTally := {
  ExchangeRate : sdk.Dec;
  Power : N
}.

Abbreviation ExchangeRateBallot := (list VoteForTally).

(** Modelled from the spec: the total power of a ballot, of which the
    weighted median takes half, is not among the sources. *)
Fixpoint TotalPower (pb : ExchangeRateBallot) : N :=
  match pb with
  | [] => 0%N
  | v :: pb' => (Power v + TotalPower pb')%N
  end.

(** Modelled from the spec: the sorting of a ballot is not among the
    sources.  The spec sorts by exchangeRate ascending: only the rates are
    compared, by insertion here. *)
Fixpoint insert (v : VoteForTally) (pb : ExchangeRateBallot) : ExchangeRateBallot :=
  match pb with
  | [] => [v]
  | w :: pb' =>
      if ExchangeRate v <=? ExchangeRate w then v :: w :: pb'
      else w :: insert v pb'
  end.

Fixpoint sort (pb : ExchangeRateBallot) : ExchangeRateBallot :=
  match pb with
  | [] => []
  | v :: pb' => insert v (sort pb')
  end.

(** Modelled from the spec: the weighted median of the tally engine is not
    among the sources.  The spec walks the sorted sequence accumulating
    power until the cumulative power reaches half of the total power; the
    rate at that crossing point is the result.  [pivot] is the power
    accumulated so far.  Half of the total is the exact half (7.5 for a
    total of 15 in the spec's scenario), so the test is made on the doubled
    cumulative power. *)
Fixpoint walk (total pivot : N) (pb : ExchangeRateBallot) : option sdk.Dec :=
  match pb with
  | [] => None
  | v :: pb' =>
      let pivot' := (pivot + Power v)%N in
      if (total <=? 2 * pivot')%N then Some (ExchangeRate v)
      else walk total pivot' pb'
  end.

(** Modelled from the spec: the weighted median of a ballot, steps 1 to 3
    of the tally, is not among the sources; a ballot without votes has no
    median. *)
Definition WeightedMedian (pb : ExchangeRateBallot) : option sdk.Dec :=
  walk (TotalPower pb) 0%N (sort pb).

(** Power of the votes of [pb] whose rate is at most [r]. *)
Definition PowerUpTo (r : sdk.Dec) (pb : ExchangeRateBallot) : N :=
  TotalPower (filter (fun v => ExchangeRate v <= r) pb).

Definition sorted (pb : ExchangeRateBallot) : Prop :=
  StronglySorted (fun v w => ExchangeRate v <= ExchangeRate w) pb.

(** What the walk computes, without reference to an order of the votes:
    [r] is the rate of a vote, the votes of rate at most [r] hold at least
    half of the power, and those up to any lower rate hold less. *)
Definition is_weighted_median (pb : ExchangeRateBallot) (r : sdk.Dec) : Prop :=
  (exists v, v ∈ pb /\ ExchangeRate v = r) /\
  (TotalPower pb <= 2 * PowerUpTo r pb)%N /\
  (forall v, v ∈ pb -> ExchangeRate v < r ->
             (2 * PowerUpTo (ExchangeRate v) pb < TotalPower pb)%N).

End tally.

(** ** The digest of a hash

    [crypto/sha256] as [tmhash] uses it: the block function on 32-bit words
    held in [Z], the padding of the message and the big-endian digest. *)
Module sha256.

Definition mask32 : Z := 0xffffffff.

Definition add32 (x y : Z) : Z := Z.land (x + y) mask32.

(** [bits.RotateLeft32 x (-n)]. *)
Definition rotr (x n : Z) : Z :=
  Z.land (Z.lor (Z.shiftr x n) (Z.shiftl x (32 - n))) mask32.

Definition not32 (x : Z) : Z := Z.lxor x mask32.

(** The prime numbers below [n], in increasing order. *)
Definition is_prime (n : Z) : bool :=
  (1 <? n) &&
  forallb (fun d => negb (n mod d =? 0))
          (map Z.of_nat (seq 2 (Z.to_nat n - 2))).

Definition primes_below (n : nat) : list Z :=
  List.filter is_prime (map Z.of_nat (seq 0 n)).

(** The integer part of a cube root, one bit at a time from bit [n - 1]. *)
Fixpoint cbrt_bits (n : nat) (x target : Z) : Z :=
  match n with
  | O => x
  | S n' =>
      let y := x + 2 ^ Z.of_nat n' in
      cbrt_bits n' (if y * y * y <=? target then y else x) target
  end.

(** The first 32 bits of the fractional part of the cube root and of the
    square root of [p]. *)
Definition frac_cbrt (p : Z) : Z := Z.land (cbrt_bits 40 0 (p * 2 ^ 96)) mask32.
Definition frac_sqrt (p : Z) : Z := Z.land (Z.sqrt (p * 2 ^ 64)) mask32.

(** The round constants: the fractional parts of the cube roots of the
    first sixty-four primes. *)
Definition _K : list Z :=
  Eval vm_compute in map frac_cbrt (firstn 64 (primes_below 312)).

(** The eight chaining words of a digest. *)
Record digest := mk_digest {
  h0 : Z; h1 : Z; h2 : Z; h3 : Z; h4 : Z; h5 : Z; h6 : Z; h7 : Z
}.

(** The initial value: the fractional parts of the square roots of the
    first eight primes. *)
Definition init : digest :=
  Eval vm_compute in
    match map frac_sqrt (firstn 8 (primes_below 20)) with
    | [a; b; c; d; e; f; g; h] => mk_digest a b c d e f g h
    | _ => mk_digest 0 0 0 0 0 0 0 0
    end.

(** The first [n] big-endian words of the chunk [p]. *)
Fixpoint load (n : nat) (p : list Z) : list Z :=
  match n, p with
  | S n', b0 :: b1 :: b2 :: b3 :: p' =>
      Z.lor (Z.lor (Z.lor (Z.shiftl b0 24) (Z.shiftl b1 16)) (Z.shiftl b2 8)) b3
        :: load n' p'
  | _, _ => []
  end.

(** The message schedule, latest word first: [w[i]] is computed from
    [w[i-2]], [w[i-7]], [w[i-15]] and [w[i-16]]. *)
Fixpoint extend (n : nat) (w : list Z) : list Z :=
  match n with
  | O => w
  | S n' =>
      let v1 := nth 1 w 0 in
      let t1 := Z.lxor (Z.lxor (rotr v1 17) (rotr v1 19)) (Z.shiftr v1 10) in
      let v2 := nth 14 w 0 in
      let t2 := Z.lxor (Z.lxor (rotr v2 7) (rotr v2 18)) (Z.shiftr v2 3) in
      extend n' (add32 (add32 (add32 t1 (nth 6 w 0)) t2) (nth 15 w 0) :: w)
  end.

Definition schedule (p : list Z) : list Z :=
  rev (extend 48 (rev (load 16 p))).

(** One of the sixty-four rounds, on the working variables a..h. *)
Definition round (s : digest) (kw : Z * Z) : digest :=
  let '(mk_digest a b c d e f g h) := s in
  let t1 :=
    add32 (add32 (add32 (add32 h
      (Z.lxor (Z.lxor (rotr e 6) (rotr e 11)) (rotr e 25)))
      (Z.lxor (Z.land e f) (Z.land (not32 e) g)))
      (fst kw)) (snd kw) in
  let t2 :=
    add32 (Z.lxor (Z.lxor (rotr a 2) (rotr a 13)) (rotr a 22))
          (Z.lxor (Z.lxor (Z.land a b) (Z.land a c)) (Z.land b c)) in
  mk_digest (add32 t1 t2) a b c (add32 d t1) e f g.

Definition block (dig : digest) (p : list Z) : digest :=
  let s := fold_left round (combine _K (schedule p)) dig in
  mk_digest (add32 (h0 dig) (h0 s)) (add32 (h1 dig) (h1 s))
            (add32 (h2 dig) (h2 s)) (add32 (h3 dig) (h3 s))
            (add32 (h4 dig) (h4 s)) (add32 (h5 dig) (h5 s))
            (add32 (h6 dig) (h6 s)) (add32 (h7 dig) (h7 s)).

(** [blockGeneric] over [n] chunks of 64 bytes. *)
Fixpoint blockGeneric (n : nat) (dig : digest) (p : list Z) : digest :=
  match n with
  | O => dig
  | S n' => blockGeneric n' (block dig (firstn 64 p)) (skipn 64 p)
  end.

(** The [n] low bytes of [x], most significant first. *)
Fixpoint bigEndian (n : nat) (x : Z) : list Z :=
  match n with
  | O => []
  | S n' => Z.land (Z.shiftr x (8 * Z.of_nat n')) 0xff :: bigEndian n' x
  end.

(** [checkSum]: a byte 0x80, zero bytes up to 56 modulo 64, and the
    length of the message in bits on eight bytes. *)
Definition pad (p : list Z) : list Z :=
  let l := Z.of_nat (length p) in
  p ++ [0x80] ++ repeat 0 (Z.to_nat ((55 - l) mod 64)) ++ bigEndian 8 (8 * l).

Definition Sum256 (data : list byte) : list byte :=
  let p := pad (map Z_of_byte data) in
  let d := blockGeneric (Nat.div (length p) 64) init p in
  map byte_of_Z
    (bigEndian 4 (h0 d) ++ bigEndian 4 (h1 d) ++ bigEndian 4 (h2 d) ++
     bigEndian 4 (h3 d) ++ bigEndian 4 (h4 d) ++ bigEndian 4 (h5 d) ++
     bigEndian 4 (h6 d) ++ bigEndian 4 (h7 d)).

End sha256.

(** [tmhash.SumTruncated]: the first [TruncatedSize] bytes of the SHA-256
    digest. *)
Definition SumTruncated (bz : list byte) : list byte :=
  firstn (Z.to_nat tmhash.TruncatedSize) (sha256.Sum256 bz).

(** [hex.EncodeToString], lower case. *)
Definition hexdigit (n : Z) : ascii :=
  ascii_of_N (Z.to_N (if n <? 10 then 48 + n else 97 + (n - 10))).

Fixpoint EncodeToString (bz : list byte) : string :=
  match bz with
  | [] => EmptyString
  | b :: bz' =>
      String (hexdigit (Z.shiftr (Z_of_byte b) 4))
        (String (hexdigit (Z.land (Z_of_byte b) 0x0f)) (EncodeToString bz'))
  end.

(** A well-formed hexadecimal string, stated without the decoder: an even
    number of characters, each a digit or a letter a..f of either case. *)
Definition is_hex_digit (c : ascii) : bool :=
  existsb (Ascii.eqb c) (list_ascii_of_string "0123456789abcdefABCDEF").

Fixpoint all_hex_digits (s : string) : bool :=
  match s with
  | EmptyString => true
  | String c s' => is_hex_digit c && all_hex_digits s'
  end.

Definition valid_hex_string (s : string) : bool :=
  Nat.even (String.length s) && all_hex_digits s.

(** [strings.ToLower] on the letters A..Z; the other bytes are kept. *)
Definition lower (c : ascii) : ascii :=
  let n := N_of_ascii c in
  if ((65 <=? n) && (n <=? 90))%N then ascii_of_N (n + 32) else c.

Fixpoint ToLower (s : string) : string :=
  match s with
  | EmptyString => EmptyString
  | String c s' => String (lower c) (ToLower s')
  end.

(** ** The oracle commands of the client (package [cli]) *)
Module cli.

Definition flagDenom : string := "denom".
Definition flagPrice : string := "price".
Definition flagVoter : string := "voter".
Definition flagValidator : string := "validator".
Definition flagDelegate : string := "delegate".

(** [viper.GetString]: the value given to a flag; the flags of the commands
    are declared with the empty string as their default. *)
Definition GetString (flags : gmap string string) (name : string) : string :=
  default EmptyString (flags !! name).

Section commands.

(** The commands are written against the SDK and against package [oracle]:
    the errors [E] of these libraries, the messages [Msg] with their two
    constructors and their [ValidateBasic], and the parsers of addresses and
    of decimals are what the commands are given. *)
Context {E Msg : Type}.
Variable NewMsgPriceFeed :
  string -> sdk.Dec -> sdk.AccAddress -> sdk.ValAddress -> Msg.
Variable NewMsgDelegateFeederPermission :
  sdk.ValAddress -> sdk.AccAddress -> Msg.
Variable ValidateBasic : Msg -> option E.
Variable ValAddressFromBech32 : string -> E + sdk.ValAddress.
Variable AccAddressFromBech32 : string -> E + sdk.AccAddress.
Variable NewDecFromStr : string -> E + sdk.Dec.

(** What a command reads of its [context.CLIContext]. *)
Record CLIContext := {
  EnsureAccountExists : option E;
  GetFromAddress : sdk.AccAddress
}.

(** The error a command returns: one of a library as it is, one made by
    [fmt.Errorf], or one of a library under a message of [errors.Wrap]. *)
Inductive error :=
| Lib (err : E)
| Errorf (text : string)
| Wrap (err : E) (message : string).

(** How [RunE] ends: it returns an error, or it hands its messages to
    [utils.GenerateOrBroadcastMsgs] and returns what that returns. *)
Inductive outcome :=
| Return (err : error)
| GenerateOrBroadcastMsgs (msgs : list Msg).

(** [RunE] of [GetCmdPriceVote]. *)
Definition GetCmdPriceVote (cliCtx : CLIContext)
    (flags : gmap string string) : outcome :=
  match EnsureAccountExists cliCtx with
  | Some err => Return (Lib err)
  | None =>
      let voter := GetFromAddress cliCtx in
      let denom := GetString flags flagDenom in
      if len_string denom =? 0 then Return (Errorf "--denom flag is required")
      else
        let priceStr := GetString flags flagPrice in
        if len_string priceStr =? 0
        then Return (Errorf "--price flag is required")
        else
          let valStr := GetString flags flagValidator in
          match (if negb (len_string valStr =? 0)
                 then ValAddressFromBech32 valStr
                 else inr (voter : sdk.ValAddress)) with
          | inl err => Return (Wrap err "validator address is invalid")
          | inr validator =>
              match NewDecFromStr priceStr with
              | inl _ =>
                  Return (Errorf ("given price {" +:+ priceStr +:+
                    "} is not a valid format; price should be formatted as float"))
              | inr price =>
                  let msg := NewMsgPriceFeed denom price voter validator in
                  match ValidateBasic msg with
                  | Some err => Return (Lib err)
                  | None => GenerateOrBroadcastMsgs [msg]
                  end
              end
          end
  end.

(** [RunE] of [GetCmdDelegateFeederPermission]. *)
Definition GetCmdDelegateFeederPermission (cliCtx : CLIContext)
    (flags : gmap string string) : outcome :=
  match EnsureAccountExists cliCtx with
  | Some err => Return (Lib err)
  | None =>
      let voter := GetFromAddress cliCtx in
      let validator : sdk.ValAddress := voter in
      let delegateStr := GetString flags flagDelegate in
      if len_string delegateStr =? 0
      then Return (Errorf "--delegate flag is required")
      else
        match AccAddressFromBech32 delegateStr with
        | inl err => Return (Wrap err "delegate is not a valid account address")
        | inr delegate =>
            let msg := NewMsgDelegateFeederPermission validator delegate in
            match ValidateBasic msg with
            | Some err => Return (Lib err)
            | None => GenerateOrBroadcastMsgs [msg]
            end
        end
  end.

End commands.

End cli.

(** An instance of what the commands are given, to run them on: messages
    that keep their fields, a validation that wants a denom, and parsers
    that take the digits of a whole number for a decimal and any text but
    "bad" for an address. *)
Inductive sample_msg :=
| SamplePriceFeed (denom : string) (price : sdk.Dec)
    (voter : sdk.AccAddress) (validator : sdk.ValAddress)
| SampleDelegateFeederPermission (operator : sdk.ValAddress)
    (delegate : sdk.AccAddress).

Definition sample_ValidateBasic (msg : sample_msg) : option string :=
  match msg with
  | SamplePriceFeed denom _ _ _ =>
      if String.eqb denom "none" then Some "unknown denom" else None
  | SampleDelegateFeederPermission _ _ => None
  end.

Definition sample_AddressFromBech32 (s : string) : string + list byte :=
  if String.eqb s "bad" then inl "decoding bech32 failed"
  else inr (list_byte_of_string s).

Definition sample_NewDecFromStr (s : string) : string + sdk.Dec :=
  match NilZero.uint_of_string s with
  | Some n => inr (Z.of_N (N.of_uint n) * 10 ^ sdk.Precision)
  | None => inl "bad decimal"
  end.

Definition sample_vote_command :=
  cli.GetCmdPriceVote SamplePriceFeed sample_ValidateBasic
    sample_AddressFromBech32 sample_NewDecFromStr.

Definition sample_delegate_command :=
  cli.GetCmdDelegateFeederPermission SampleDelegateFeederPermission
    sample_ValidateBasic sample_AddressFromBech32.

Definition sample_cliCtx : cli.CLIContext (E := string) :=
  {| cli.EnsureAccountExists := None;
     cli.GetFromAddress := list_byte_of_string "voter" |}.

(** * Properties of the message validation *)

Lemma fromHexChar_is_hex_digit (c : ascii) :
  is_hex_digit c = true <-> exists n, hex.fromHexChar c = Some n.
Proof.
  destruct c as [[] [] [] [] [] [] [] []]; vm_compute;
    split; try discriminate; try (intros [n Hn]; discriminate); eauto.
Qed.

Lemma fromHexChar_not_hex_digit (c : ascii) :
  is_hex_digit c = false <-> hex.fromHexChar c = None.
Proof.
  destruct c as [[] [] [] [] [] [] [] []]; vm_compute;
    split; congruence.
Qed.

(** The decoder reports no error exactly on the well-formed strings.  The
    statement is proved for a string and for the string with one more
    character in front, so that the step of two characters of the decoder is
    an induction step. *)
Lemma DecodeString_valid_pair (s : string) :
  ((hex.DecodeString s).2 = None <-> valid_hex_string s = true) /\
  (forall c, (hex.DecodeString (String c s)).2 = None <->
             valid_hex_string (String c s) = true).
Proof.
  induction s as [|d s [IH1 IH2]].
  - split; [by vm_compute|].
    intros c. cbn [hex.DecodeString].
    destruct (hex.fromHexChar c); cbn; split; try discriminate.
    all: unfold valid_hex_string; cbn; discriminate.
  - split; [apply IH2|].
    intros c. cbn [hex.DecodeString].
    unfold valid_hex_string in *. cbn [String.length all_hex_digits Nat.even] in *.
    destruct (hex.fromHexChar c) as [a|] eqn:Hc.
    + assert (is_hex_digit c = true) as -> by (apply fromHexChar_is_hex_digit; eauto).
      destruct (hex.fromHexChar d) as [b|] eqn:Hd.
      * assert (is_hex_digit d = true) as -> by (apply fromHexChar_is_hex_digit; eauto).
        destruct (hex.DecodeString s) as [bz err] eqn:Hs. cbn [snd] in *.
        rewrite IH1, !andb_true_l. reflexivity.
      * assert (is_hex_digit d = false) as -> by (by apply fromHexChar_not_hex_digit).
        cbn. rewrite andb_false_r. split; discriminate.
    + assert (is_hex_digit c = false) as -> by (by apply fromHexChar_not_hex_digit).
      cbn. rewrite andb_false_r. split; discriminate.
Qed.

Lemma DecodeString_valid (s : string) :
  (hex.DecodeString s).2 = None <-> valid_hex_string s = true.
Proof. apply DecodeString_valid_pair. Qed.

(** Every pair of digits gives one byte: a string that decodes has twice as
    many characters as the result has bytes. *)
Lemma DecodeString_length_pair (s : string) :
  (forall bz, hex.DecodeString s = (bz, None) ->
              len_string s = 2 * len_bytes bz) /\
  (forall c bz, hex.DecodeString (String c s) = (bz, None) ->
                len_string (String c s) = 2 * len_bytes bz).
Proof.
  unfold len_string, len_bytes.
  induction s as [|d s [IH1 IH2]].
  - split.
    + intros bz [= <-]. reflexivity.
    + intros c bz. cbn [hex.DecodeString].
      destruct (hex.fromHexChar c); discriminate.
  - split; [apply IH2|].
    intros c bz. cbn [hex.DecodeString].
    destruct (hex.fromHexChar c); [|discriminate].
    destruct (hex.fromHexChar d); [|discriminate].
    destruct (hex.DecodeString s) as [bz' err] eqn:Hs.
    intros [= <- ->]. specialize (IH1 bz' eq_refl).
    cbn [String.length length]. lia.
Qed.

Lemma DecodeString_length (s : string) (bz : list byte) :
  hex.DecodeString s = (bz, None) -> len_string s = 2 * len_bytes bz.
Proof. apply DecodeString_length_pair. Qed.

Lemma len_string_0 (s : string) :
  (len_string s =? 0) = true <-> s = EmptyString.
Proof. unfold len_string. destruct s; cbn; split; done. Qed.

Lemma Empty_true (a : list byte) : sdk.Empty a = true <-> a = [].
Proof. destruct a; cbn; split; done. Qed.

Lemma Empty_false (a : list byte) : sdk.Empty a = false <-> a <> [].
Proof. destruct a; cbn; split; done. Qed.

Lemma len_string_nonempty (s : string) :
  (len_string s =? 0) = false <-> s <> EmptyString.
Proof.
  rewrite <- len_string_0. destruct (len_string s =? 0); split; congruence.
Qed.

(** [BitLen] is the bit length of the magnitude: one more than the binary
    logarithm of the absolute value, and 0 for 0. *)
Lemma BitLen_log2 (d : sdk.Dec) :
  sdk.BitLen d = if d =? 0 then 0 else Z.log2 (Z.abs d) + 1.
Proof.
  destruct d as [|p|p]; cbn [sdk.BitLen Z.eqb Z.abs]; try reflexivity.
  all: destruct p; unfold Z.abs, Z.log2; cbn [Pos.size]; lia.
Qed.

Lemma BitLen_abs (d : sdk.Dec) : sdk.BitLen (Z.abs d) = sdk.BitLen d.
Proof. by destruct d. Qed.

Lemma BitLen_opp (d : sdk.Dec) : sdk.BitLen (- d) = sdk.BitLen d.
Proof. by destruct d. Qed.

Lemma gtb_true (a b : Z) : (a >? b) = true <-> b < a.
Proof. rewrite Z.gtb_ltb. apply Z.ltb_lt. Qed.

Lemma gtb_false (a b : Z) : (a >? b) = false <-> a <= b.
Proof. rewrite Z.gtb_ltb. apply Z.ltb_ge. Qed.

Lemma salt_test_true (l : Z) : ((l >? 4) || (l <? 1)) = true <-> l < 1 \/ 4 < l.
Proof. rewrite orb_true_iff, gtb_true, Z.ltb_lt. tauto. Qed.

Lemma salt_test_false (l : Z) : ((l >? 4) || (l <? 1)) = false <-> 1 <= l <= 4.
Proof. rewrite orb_false_iff, gtb_false, Z.ltb_ge. tauto. Qed.

Lemma length_test_true (l : Z) :
  negb (l =? tmhash.TruncatedSize) = true <-> l <> tmhash.TruncatedSize.
Proof. rewrite negb_true_iff. apply Z.eqb_neq. Qed.

Lemma length_test_false (l : Z) :
  negb (l =? tmhash.TruncatedSize) = false <-> l = tmhash.TruncatedSize.
Proof. rewrite negb_false_iff. apply Z.eqb_eq. Qed.

(** Case analysis on one test of a [ValidateBasic]; the test leaves its
    outcome as a hypothesis. *)
Ltac split_test :=
  match goal with
  | |- context [if len_string ?s =? 0 then _ else _] =>
      let H := fresh "Hdenom" in
      destruct (len_string s =? 0) eqn:H;
      [apply len_string_0 in H | apply len_string_nonempty in H]
  | |- context [if sdk.Empty ?a then _ else _] =>
      let H := fresh "Haddr" in
      destruct (sdk.Empty a) eqn:H;
      [apply Empty_true in H | apply Empty_false in H]
  | |- context [if ?a >? ?b then _ else _] =>
      let H := fresh "Hbits" in
      destruct (a >? b) eqn:H;
      [apply gtb_true in H | apply gtb_false in H]
  | |- context [if (?l >? 4) || (?l <? 1) then _ else _] =>
      let H := fresh "Hsalt" in
      destruct ((l >? 4) || (l <? 1)) eqn:H;
      [apply salt_test_true in H | apply salt_test_false in H]
  | |- context [if negb (?l =? tmhash.TruncatedSize) then _ else _] =>
      let H := fresh "Hlen" in
      destruct (negb (l =? tmhash.TruncatedSize)) eqn:H;
      [apply length_test_true in H | apply length_test_false in H]
  end.

(** Case analysis on all the tests, then the branch taken. *)
Ltac split_tests := repeat split_test; cbv beta iota.

Ltac no_such_failure :=
  let e := fresh "e" in
  let He := fresh "He" in
  let Hk := fresh "Hk" in
  intros (e & He & Hk);
  first [discriminate He | injection He as <-; discriminate Hk].

(** The cases left by [split_tests]: a failure of another kind than the one
    returned is absurd, and the rest follows from the outcomes of the tests. *)
Ltac failure_cases :=
  repeat split; intros;
  repeat match goal with H : _ /\ _ |- _ => destruct H end;
  try match goal with
      | H : fails_with _ _ |- _ => exfalso; revert H; no_such_failure
      end;
  try no_such_failure;
  try reflexivity; try tauto; try lia; try congruence;
  try (eexists; split; reflexivity).

(** C3: a prevote whose hash decodes to a number of bytes other than the
    truncated digest size, smaller or larger, fails validation with
    InvalidHashLength (the error carries the decoded length); a hash that
    decodes to exactly the truncated digest size passes the length check:
    validation then fails neither with InvalidHashLength nor with
    InvalidHash. *)
Theorem prevote_hash_length_checked
    (msg : MsgExchangeRatePrevote.t) (bz : list byte) :
  hex.DecodeString (MsgExchangeRatePrevote.Hash msg) = (bz, None) ->
  (len_bytes bz < tmhash.TruncatedSize \/ tmhash.TruncatedSize < len_bytes bz ->
     MsgExchangeRatePrevote.ValidateBasic msg
       = Some (ErrInvalidHashLength (len_bytes bz)) /\
     fails_with (MsgExchangeRatePrevote.ValidateBasic msg) InvalidHashLength) /\
  (len_bytes bz = tmhash.TruncatedSize ->
     ~ fails_with (MsgExchangeRatePrevote.ValidateBasic msg) InvalidHashLength /\
     ~ fails_with (MsgExchangeRatePrevote.ValidateBasic msg) InvalidHash).
Proof.
  intros Hdec. unfold MsgExchangeRatePrevote.ValidateBasic. rewrite Hdec.
  cbv zeta. split_tests.
  all: split; [intros Hne|intros Heq]; try lia.
  all: try (split; no_such_failure).
  all: split; [reflexivity|eexists; split; reflexivity].
Qed.

Lemma prevote_hash_length_checked_witness :
  hex.DecodeString "abcd" = ([xab; xcd], None) /\
  MsgExchangeRatePrevote.ValidateBasic
    (MsgExchangeRatePrevote.NewMsgExchangeRatePrevote "abcd" "ukrw" [x01] [x02])
  = Some (ErrInvalidHashLength 2).
Proof.
  split; [reflexivity|].
  apply (prevote_hash_length_checked
           (MsgExchangeRatePrevote.NewMsgExchangeRatePrevote "abcd" "ukrw" [x01] [x02])
           [xab; xcd]); [reflexivity|].
  left. reflexivity.
Defined.

(** C4 as stated fails: a vote with an empty denom and an empty salt is
    rejected with UnknownDenom, not with InvalidSaltLength, although the
    length of its salt is outside [1,4]. *)
Lemma salt_length_error_not_for_every_vote :
  ~ (forall msg : MsgExchangeRateVote.t,
       fails_with (MsgExchangeRateVote.ValidateBasic msg) InvalidSaltLength <->
       (len_string (MsgExchangeRateVote.Salt msg) < 1 \/
        4 < len_string (MsgExchangeRateVote.Salt msg))).
Proof.
  intros H.
  destruct (H (MsgExchangeRateVote.NewMsgExchangeRateVote 1 "" "" [x01] [x02]))
    as [_ Hfail].
  destruct Hfail as (e & He & Hk); [left; reflexivity|].
  injection He as <-. discriminate Hk.
Qed.

(** C4, amended: validation of a vote fails with InvalidSaltLength exactly
    when the denom, the feeder and the validator are non-empty, the bit
    length of the rate is within its bound and the length of the salt is
    outside [1,4]; the error carries that length; with a salt of length 1,
    2, 3 or 4 validation never fails with InvalidSaltLength. *)
Theorem vote_salt_length_checked (msg : MsgExchangeRateVote.t) :
  (fails_with (MsgExchangeRateVote.ValidateBasic msg) InvalidSaltLength <->
     MsgExchangeRateVote.Denom msg <> EmptyString /\
     MsgExchangeRateVote.Feeder msg <> [] /\
     MsgExchangeRateVote.Validator msg <> [] /\
     sdk.BitLen (MsgExchangeRateVote.ExchangeRate msg)
       <= 100 + sdk.DecimalPrecisionBits /\
     (len_string (MsgExchangeRateVote.Salt msg) < 1 \/
      4 < len_string (MsgExchangeRateVote.Salt msg))) /\
  (fails_with (MsgExchangeRateVote.ValidateBasic msg) InvalidSaltLength ->
     MsgExchangeRateVote.ValidateBasic msg
       = Some (ErrInvalidSaltLength (len_string (MsgExchangeRateVote.Salt msg)))) /\
  (1 <= len_string (MsgExchangeRateVote.Salt msg) <= 4 ->
     ~ fails_with (MsgExchangeRateVote.ValidateBasic msg) InvalidSaltLength).
Proof.
  unfold MsgExchangeRateVote.ValidateBasic. cbv zeta.
  split_tests; failure_cases.
Qed.

(** C5 as stated fails: a vote with an empty denom and a rate of 201 bits
    is rejected with UnknownDenom, not with InvalidExchangeRateMagnitude. *)
Lemma rate_magnitude_error_not_for_every_vote :
  ~ (forall msg : MsgExchangeRateVote.t,
       fails_with (MsgExchangeRateVote.ValidateBasic msg)
                  InvalidExchangeRateMagnitude <->
       sdk.BitLen (MsgExchangeRateVote.ExchangeRate msg)
         > 100 + sdk.DecimalPrecisionBits).
Proof.
  intros H.
  destruct (H (MsgExchangeRateVote.NewMsgExchangeRateVote (2 ^ 200) "salt" "" [x01] [x02]))
    as [_ Hfail].
  destruct Hfail as (e & He & Hk); [reflexivity|].
  injection He as <-. discriminate Hk.
Qed.

(** C5, amended: validation of a vote fails with
    InvalidExchangeRateMagnitude exactly when the denom, the feeder and the
    validator are non-empty and the bit length of the rate exceeds 100 plus
    the decimal-precision bit count; the error carries the rate; a rate
    whose bit length is within the bound passes the magnitude check. *)
Theorem vote_rate_magnitude_checked (msg : MsgExchangeRateVote.t) :
  (fails_with (MsgExchangeRateVote.ValidateBasic msg)
              InvalidExchangeRateMagnitude <->
     MsgExchangeRateVote.Denom msg <> EmptyString /\
     MsgExchangeRateVote.Feeder msg <> [] /\
     MsgExchangeRateVote.Validator msg <> [] /\
     sdk.BitLen (MsgExchangeRateVote.ExchangeRate msg)
       > 100 + sdk.DecimalPrecisionBits) /\
  (fails_with (MsgExchangeRateVote.ValidateBasic msg)
              InvalidExchangeRateMagnitude ->
     MsgExchangeRateVote.ValidateBasic msg
       = Some (ErrInvalidExchangeRate (MsgExchangeRateVote.ExchangeRate msg))) /\
  (sdk.BitLen (MsgExchangeRateVote.ExchangeRate msg)
     <= 100 + sdk.DecimalPrecisionBits ->
     ~ fails_with (MsgExchangeRateVote.ValidateBasic msg)
                  InvalidExchangeRateMagnitude).
Proof.
  unfold MsgExchangeRateVote.ValidateBasic. cbv zeta.
  split_tests; failure_cases.
Qed.

(** C6: validation of a feeder-delegation message fails with InvalidAddress
    exactly when the operator is empty or the delegate is empty, and it
    succeeds exactly when both are non-empty: there is no other check. *)
Theorem delegate_consent_validation (msg : MsgDelegateFeedConsent.t) :
  (fails_with (MsgDelegateFeedConsent.ValidateBasic msg) InvalidAddress <->
     MsgDelegateFeedConsent.Operator msg = [] \/
     MsgDelegateFeedConsent.Delegate msg = []) /\
  (MsgDelegateFeedConsent.ValidateBasic msg = Some ErrInvalidAddress <->
     MsgDelegateFeedConsent.Operator msg = [] \/
     MsgDelegateFeedConsent.Delegate msg = []) /\
  (MsgDelegateFeedConsent.ValidateBasic msg = None <->
     MsgDelegateFeedConsent.Operator msg <> [] /\
     MsgDelegateFeedConsent.Delegate msg <> []).
Proof.
  unfold MsgDelegateFeedConsent.ValidateBasic.
  split_tests; failure_cases.
Qed.

(** C7: for a prevote whose hash decodes, the checks are made in the order
    hash length, denom, feeder, validator: a wrong length gives
    InvalidHashLength whatever the other fields are (in particular with an
    empty denom); with the right length an empty denom gives UnknownDenom;
    then an empty feeder gives InvalidAddress; then an empty validator gives
    InvalidAddress; otherwise validation succeeds. *)
Theorem prevote_validation_order
    (msg : MsgExchangeRatePrevote.t) (bz : list byte) :
  hex.DecodeString (MsgExchangeRatePrevote.Hash msg) = (bz, None) ->
  (len_bytes bz <> tmhash.TruncatedSize ->
     MsgExchangeRatePrevote.ValidateBasic msg
       = Some (ErrInvalidHashLength (len_bytes bz))) /\
  (len_bytes bz <> tmhash.TruncatedSize ->
   MsgExchangeRatePrevote.Denom msg = EmptyString ->
     fails_with (MsgExchangeRatePrevote.ValidateBasic msg) InvalidHashLength) /\
  (len_bytes bz = tmhash.TruncatedSize ->
   MsgExchangeRatePrevote.Denom msg = EmptyString ->
     MsgExchangeRatePrevote.ValidateBasic msg = Some ErrUnknowDenom) /\
  (len_bytes bz = tmhash.TruncatedSize ->
   MsgExchangeRatePrevote.Denom msg <> EmptyString ->
   MsgExchangeRatePrevote.Feeder msg = [] ->
     MsgExchangeRatePrevote.ValidateBasic msg = Some ErrInvalidAddress) /\
  (len_bytes bz = tmhash.TruncatedSize ->
   MsgExchangeRatePrevote.Denom msg <> EmptyString ->
   MsgExchangeRatePrevote.Feeder msg <> [] ->
   MsgExchangeRatePrevote.Validator msg = [] ->
     MsgExchangeRatePrevote.ValidateBasic msg = Some ErrInvalidAddress) /\
  (len_bytes bz = tmhash.TruncatedSize ->
   MsgExchangeRatePrevote.Denom msg <> EmptyString ->
   MsgExchangeRatePrevote.Feeder msg <> [] ->
   MsgExchangeRatePrevote.Validator msg <> [] ->
     MsgExchangeRatePrevote.ValidateBasic msg = None).
Proof.
  intros Hdec. unfold MsgExchangeRatePrevote.ValidateBasic. rewrite Hdec.
  cbv zeta. split_tests; failure_cases.
Qed.

Lemma prevote_validation_order_witness :
  hex.DecodeString "abcd" = ([xab; xcd], None) /\
  fails_with
    (MsgExchangeRatePrevote.ValidateBasic
       (MsgExchangeRatePrevote.NewMsgExchangeRatePrevote "abcd" "" [] []))
    InvalidHashLength.
Proof.
  split; [reflexivity|].
  apply (prevote_validation_order
           (MsgExchangeRatePrevote.NewMsgExchangeRatePrevote "abcd" "" [] [])
           [xab; xcd]); [reflexivity| |reflexivity].
  intros H. discriminate H.
Defined.

(** C8: the signers of a prevote and of a vote are the feeder alone (so the
    validator signs only where it is the feeder), and the signer of a
    feeder-delegation message is the operator's account alone. *)
Theorem signers_of_messages :
  (forall msg : MsgExchangeRatePrevote.t,
     MsgExchangeRatePrevote.GetSigners msg = [MsgExchangeRatePrevote.Feeder msg] /\
     forall a, a ∈ MsgExchangeRatePrevote.GetSigners msg <->
               a = MsgExchangeRatePrevote.Feeder msg) /\
  (forall msg : MsgExchangeRateVote.t,
     MsgExchangeRateVote.GetSigners msg = [MsgExchangeRateVote.Feeder msg] /\
     forall a, a ∈ MsgExchangeRateVote.GetSigners msg <->
               a = MsgExchangeRateVote.Feeder msg) /\
  (forall msg : MsgDelegateFeedConsent.t,
     MsgDelegateFeedConsent.GetSigners msg = [MsgDelegateFeedConsent.Operator msg] /\
     forall a, a ∈ MsgDelegateFeedConsent.GetSigners msg <->
               a = MsgDelegateFeedConsent.Operator msg).
Proof.
  repeat split; intros.
  all: try (apply list_elem_of_singleton; assumption).
  all: by apply list_elem_of_singleton.
Qed.

(** C9: a prevote whose hash is no well-formed hexadecimal string fails
    validation with InvalidHash, an error other than InvalidHashLength, and
    does so whatever its denom, feeder and validator are: no other check is
    reached. *)
Theorem prevote_invalid_hex_rejected (msg : MsgExchangeRatePrevote.t) :
  valid_hex_string (MsgExchangeRatePrevote.Hash msg) = false ->
  (exists cause,
     MsgExchangeRatePrevote.ValidateBasic msg = Some (ErrInvalidHash cause) /\
     forall denom feeder validator,
       MsgExchangeRatePrevote.ValidateBasic
         (MsgExchangeRatePrevote.NewMsgExchangeRatePrevote
            (MsgExchangeRatePrevote.Hash msg) denom feeder validator)
       = Some (ErrInvalidHash cause)) /\
  fails_with (MsgExchangeRatePrevote.ValidateBasic msg) InvalidHash /\
  ~ fails_with (MsgExchangeRatePrevote.ValidateBasic msg) InvalidHashLength.
Proof.
  intros Hhex.
  assert ((hex.DecodeString (MsgExchangeRatePrevote.Hash msg)).2 <> None) as Herr.
  { rewrite DecodeString_valid. congruence. }
  unfold MsgExchangeRatePrevote.ValidateBasic. cbn [MsgExchangeRatePrevote.Hash
    MsgExchangeRatePrevote.NewMsgExchangeRatePrevote].
  destruct (hex.DecodeString (MsgExchangeRatePrevote.Hash msg)) as [bz [cause|]];
    [|done].
  split; [|split].
  - exists cause. split; reflexivity.
  - eexists; split; reflexivity.
  - no_such_failure.
Qed.

Lemma prevote_invalid_hex_rejected_witness :
  valid_hex_string "zz" = false /\
  fails_with
    (MsgExchangeRatePrevote.ValidateBasic
       (MsgExchangeRatePrevote.NewMsgExchangeRatePrevote "zz" "" [] []))
    InvalidHash.
Proof.
  split; [reflexivity|].
  apply (prevote_invalid_hex_rejected
           (MsgExchangeRatePrevote.NewMsgExchangeRatePrevote "zz" "" [] [])).
  reflexivity.
Defined.

(** C10: a vote whose rate is zero or negative passes validation when its
    denom, feeder and validator are non-empty, its salt has 1 to 4 bytes and
    the bit length of the rate is within the bound; that bit length is the
    one of the magnitude of the rate. *)
Theorem vote_rate_sign_unchecked (msg : MsgExchangeRateVote.t) :
  MsgExchangeRateVote.ExchangeRate msg <= 0 ->
  MsgExchangeRateVote.Denom msg <> EmptyString ->
  MsgExchangeRateVote.Feeder msg <> [] ->
  MsgExchangeRateVote.Validator msg <> [] ->
  1 <= len_string (MsgExchangeRateVote.Salt msg) <= 4 ->
  sdk.BitLen (MsgExchangeRateVote.ExchangeRate msg)
    <= 100 + sdk.DecimalPrecisionBits ->
  MsgExchangeRateVote.ValidateBasic msg = None /\
  sdk.BitLen (MsgExchangeRateVote.ExchangeRate msg)
    = sdk.BitLen (Z.abs (MsgExchangeRateVote.ExchangeRate msg)) /\
  sdk.BitLen (MsgExchangeRateVote.ExchangeRate msg)
    = if MsgExchangeRateVote.ExchangeRate msg =? 0 then 0
      else Z.log2 (- MsgExchangeRateVote.ExchangeRate msg) + 1.
Proof.
  intros Hrate Hdenom Hfeeder Hval Hsalt Hbits. split; [|split].
  - unfold MsgExchangeRateVote.ValidateBasic. cbv zeta.
    split_tests; failure_cases.
  - symmetry. apply BitLen_abs.
  - rewrite BitLen_log2. destruct (_ =? 0); [reflexivity|].
    rewrite Z.abs_neq by assumption. reflexivity.
Qed.

Lemma vote_rate_sign_unchecked_witness :
  MsgExchangeRateVote.ValidateBasic
    (MsgExchangeRateVote.NewMsgExchangeRateVote (-5) "salt" "ukrw" [x01] [x02])
  = None.
Proof.
  apply (vote_rate_sign_unchecked
           (MsgExchangeRateVote.NewMsgExchangeRateVote (-5) "salt" "ukrw" [x01] [x02]));
    cbn; try done; try lia.
Defined.

(** * Properties of the tally *)

Lemma TotalPower_app (l1 l2 : tally.ExchangeRateBallot) :
  tally.TotalPower (l1 ++ l2) = (tally.TotalPower l1 + tally.TotalPower l2)%N.
Proof. induction l1 as [|v l1 IH]; cbn; [reflexivity|]. rewrite IH. lia. Qed.

Lemma TotalPower_perm (l l' : tally.ExchangeRateBallot) :
  l ≡ₚ l' -> tally.TotalPower l = tally.TotalPower l'.
Proof. induction 1; cbn; lia. Qed.

Lemma PowerUpTo_perm (r : sdk.Dec) (l l' : tally.ExchangeRateBallot) :
  l ≡ₚ l' -> tally.PowerUpTo r l = tally.PowerUpTo r l'.
Proof. intros Hp. apply TotalPower_perm. by rewrite Hp. Qed.

Lemma PowerUpTo_app (r : sdk.Dec) (l1 l2 : tally.ExchangeRateBallot) :
  tally.PowerUpTo r (l1 ++ l2)
  = (tally.PowerUpTo r l1 + tally.PowerUpTo r l2)%N.
Proof. unfold tally.PowerUpTo. by rewrite filter_app, TotalPower_app. Qed.

Lemma PowerUpTo_cons (r : sdk.Dec) (v : tally.VoteForTally)
    (l : tally.ExchangeRateBallot) :
  tally.PowerUpTo r (v :: l)
  = ((if bool_decide (tally.ExchangeRate v <= r)%Z then tally.Power v else 0)
     + tally.PowerUpTo r l)%N.
Proof.
  unfold tally.PowerUpTo. rewrite filter_cons.
  case_bool_decide; destruct (decide _); try done.
Qed.

Lemma PowerUpTo_le_total (r : sdk.Dec) (l : tally.ExchangeRateBallot) :
  (tally.PowerUpTo r l <= tally.TotalPower l)%N.
Proof.
  induction l as [|v l IH]; [done|].
  rewrite PowerUpTo_cons. cbn [tally.TotalPower]. case_bool_decide; lia.
Qed.

Lemma PowerUpTo_all (r : sdk.Dec) (l : tally.ExchangeRateBallot) :
  (forall v, v ∈ l -> tally.ExchangeRate v <= r) ->
  tally.PowerUpTo r l = tally.TotalPower l.
Proof.
  induction l as [|v l IH]; intros Hall; [done|].
  rewrite PowerUpTo_cons. cbn [tally.TotalPower].
  rewrite IH by (intros; apply Hall; by right).
  rewrite bool_decide_eq_true_2; [done|]. apply Hall. by left.
Qed.

Lemma PowerUpTo_none (r : sdk.Dec) (l : tally.ExchangeRateBallot) :
  (forall v, v ∈ l -> r < tally.ExchangeRate v) ->
  tally.PowerUpTo r l = 0%N.
Proof.
  induction l as [|v l IH]; intros Hall; [done|].
  rewrite PowerUpTo_cons.
  rewrite IH by (intros; apply Hall; by right).
  rewrite bool_decide_eq_false_2; [done|].
  assert (r < tally.ExchangeRate v) by (apply Hall; by left). lia.
Qed.

(** Sorting permutes the ballot and orders it by rate. *)
Lemma insert_perm (v : tally.VoteForTally) (l : tally.ExchangeRateBallot) :
  tally.insert v l ≡ₚ v :: l.
Proof.
  induction l as [|w l IH]; cbn; [done|].
  destruct (_ <=? _); [done|]. rewrite IH. apply Permutation_swap.
Qed.

Lemma sort_perm (l : tally.ExchangeRateBallot) : tally.sort l ≡ₚ l.
Proof.
  induction l as [|v l IH]; cbn; [done|]. by rewrite insert_perm, IH.
Qed.

Lemma insert_sorted (v : tally.VoteForTally) (l : tally.ExchangeRateBallot) :
  tally.sorted l -> tally.sorted (tally.insert v l).
Proof.
  unfold tally.sorted. induction l as [|w l IH]; cbn; intros Hs.
  - by repeat constructor.
  - apply StronglySorted_cons in Hs as [Hw Hl].
    destruct (Z.leb_spec (tally.ExchangeRate v) (tally.ExchangeRate w)) as [Hle|Hlt].
    + apply StronglySorted_cons. split.
      * constructor; [done|].
        eapply Forall_impl; [exact Hw|]. cbn. intros; lia.
      * by apply StronglySorted_cons.
    + apply StronglySorted_cons. split; [|by apply IH].
      rewrite insert_perm. constructor; [lia|done].
Qed.

Lemma sort_sorted (l : tally.ExchangeRateBallot) : tally.sorted (tally.sort l).
Proof.
  induction l as [|v l IH]; cbn; [constructor|]. by apply insert_sorted.
Qed.

(** The walk passes a prefix whose power stays below half of the total. *)
Lemma walk_skip (total pivot : N) (l1 l : tally.ExchangeRateBallot) :
  (2 * (pivot + tally.TotalPower l1) < total)%N ->
  tally.walk total pivot (l1 ++ l)
  = tally.walk total (pivot + tally.TotalPower l1) l.
Proof.
  revert pivot. induction l1 as [|v l1 IH]; intros pivot Hlt; cbn in *.
  - by rewrite N.add_0_r.
  - destruct (N.leb_spec total (2 * (pivot + tally.Power v))); [lia|].
    rewrite IH by lia. f_equal. lia.
Qed.

(** Where the walk stops: at the first vote [v] with which the accumulated
    power reaches half of the total. *)
Lemma walk_stops (total pivot : N) (l : tally.ExchangeRateBallot) (r : sdk.Dec) :
  tally.walk total pivot l = Some r ->
  exists l1 v l2,
    l = l1 ++ v :: l2 /\ tally.ExchangeRate v = r /\
    (total <= 2 * (pivot + tally.TotalPower l1 + tally.Power v))%N /\
    (l1 <> [] -> (2 * (pivot + tally.TotalPower l1) < total)%N).
Proof.
  revert pivot. induction l as [|w l IH]; intros pivot; cbn; [done|].
  destruct (N.leb_spec total (2 * (pivot + tally.Power w))) as [Hle|Hlt].
  - intros [= <-]. exists [], w, l. cbn. repeat split; [lia|done].
  - intros Hw. destruct (IH _ Hw) as (l1 & v & l2 & -> & Hr & Hreach & Hbelow).
    exists (w :: l1), v, l2. cbn. repeat split; [done|lia|].
    intros _. destruct l1 as [|w' l1]; [cbn; lia|].
    specialize (Hbelow ltac:(done)). lia.
Qed.

(** The walk over a ballot with votes stops: with the last vote the whole
    power is accumulated. *)
Lemma walk_returns (total pivot : N) (l : tally.ExchangeRateBallot) :
  l <> [] ->
  (total <= 2 * (pivot + tally.TotalPower l))%N ->
  exists r, tally.walk total pivot l = Some r.
Proof.
  revert pivot. induction l as [|w l IH]; intros pivot Hne Htot; [done|].
  cbn in *. destruct (N.leb_spec total (2 * (pivot + tally.Power w))); [eauto|].
  destruct l as [|w' l]; [cbn in *; lia|].
  apply IH; [done|lia].
Qed.

Lemma walk_is_weighted_median (l : tally.ExchangeRateBallot) (r : sdk.Dec) :
  tally.sorted l ->
  tally.walk (tally.TotalPower l) 0 l = Some r ->
  tally.is_weighted_median l r.
Proof.
  intros Hs Hw.
  destruct (walk_stops _ _ _ _ Hw) as (l1 & v & l2 & -> & <- & Hreach & Hbelow).
  apply StronglySorted_app in Hs as (Hcross & Hs1 & Hs2).
  apply StronglySorted_cons in Hs2 as [Hv Hs2]. rewrite Forall_forall in Hv.
  split; [|split].
  - exists v. split; [|done]. apply elem_of_app. right. by left.
  - rewrite PowerUpTo_app, PowerUpTo_cons.
    rewrite (PowerUpTo_all _ l1) by (intros w Hin; apply Hcross; [done|by left]).
    rewrite bool_decide_eq_true_2 by lia. lia.
  - intros w Hin Hlt.
    assert (w ∈ l1) as Hin1.
    { apply elem_of_app in Hin as [?|Hin]; [done|].
      apply elem_of_cons in Hin as [->|Hin]; [lia|].
      specialize (Hv _ Hin). cbn in Hv. lia. }
    rewrite PowerUpTo_app, PowerUpTo_cons.
    rewrite bool_decide_eq_false_2 by lia.
    rewrite (PowerUpTo_none _ l2)
      by (intros u Hu; specialize (Hv _ Hu); cbn in Hv; lia).
    pose proof (PowerUpTo_le_total (tally.ExchangeRate w) l1).
    assert (l1 <> []) as Hne by (intros ->; by apply not_elem_of_nil in Hin1).
    specialize (Hbelow Hne). lia.
Qed.

Lemma is_weighted_median_perm (l l' : tally.ExchangeRateBallot) (r : sdk.Dec) :
  l ≡ₚ l' -> tally.is_weighted_median l r -> tally.is_weighted_median l' r.
Proof.
  intros Hp ((v & Hin & Hr) & Hreach & Hbelow). split; [|split].
  - exists v. by rewrite <- Hp.
  - by rewrite <- (TotalPower_perm _ _ Hp), <- (PowerUpTo_perm _ _ _ Hp).
  - intros w Hw Hlt. rewrite <- Hp in Hw.
    rewrite <- (TotalPower_perm _ _ Hp), <- (PowerUpTo_perm _ _ _ Hp). eauto.
Qed.

Lemma is_weighted_median_unique (l : tally.ExchangeRateBallot) (r r' : sdk.Dec) :
  tally.is_weighted_median l r -> tally.is_weighted_median l r' -> r = r'.
Proof.
  intros ((v & Hin & Hr) & Hreach & Hbelow) ((v' & Hin' & Hr') & Hreach' & Hbelow').
  destruct (Z.lt_trichotomy r r') as [Hlt|[?|Hlt]]; [|done|].
  - specialize (Hbelow' v Hin ltac:(lia)). rewrite Hr in Hbelow'. lia.
  - specialize (Hbelow v' Hin' ltac:(lia)). rewrite Hr' in Hbelow. lia.
Qed.

(** The weighted median of a ballot with votes exists and is the rate that
    [is_weighted_median] describes. *)
Lemma WeightedMedian_returns (pb : tally.ExchangeRateBallot) :
  pb <> [] -> exists r, tally.WeightedMedian pb = Some r.
Proof.
  intros Hne. apply walk_returns.
  - intros Hnil. pose proof (sort_perm pb) as Hp. rewrite Hnil in Hp.
    by apply Permutation_nil in Hp.
  - rewrite (TotalPower_perm _ _ (sort_perm pb)). lia.
Qed.

Lemma WeightedMedian_is_weighted_median (pb : tally.ExchangeRateBallot) (r : sdk.Dec) :
  tally.WeightedMedian pb = Some r -> tally.is_weighted_median pb r.
Proof.
  unfold tally.WeightedMedian. intros Hw.
  apply (is_weighted_median_perm (tally.sort pb)); [apply sort_perm|].
  apply walk_is_weighted_median; [apply sort_sorted|].
  by rewrite (TotalPower_perm _ _ (sort_perm pb)).
Qed.

(** The walk gives the weighted median over any arrangement of the ballot
    that is sorted by rate, however votes of equal rate are placed. *)
Lemma walk_any_sorting (pb s : tally.ExchangeRateBallot) :
  s ≡ₚ pb -> tally.sorted s ->
  tally.walk (tally.TotalPower pb) 0 s = tally.WeightedMedian pb.
Proof.
  intros Hp Hs. destruct pb as [|v pb].
  { apply Permutation_nil_r in Hp as ->. reflexivity. }
  destruct (WeightedMedian_returns (v :: pb)) as [r Hr]; [done|].
  destruct (walk_returns (tally.TotalPower (v :: pb)) 0 s) as [r' Hr'].
  - intros ->. by apply Permutation_nil_cons in Hp.
  - rewrite (TotalPower_perm _ _ Hp). lia.
  - rewrite Hr, Hr'. f_equal.
    apply (is_weighted_median_unique (v :: pb)).
    + apply (is_weighted_median_perm s); [done|].
      apply walk_is_weighted_median; [done|].
      by rewrite (TotalPower_perm _ _ Hp).
    + by apply WeightedMedian_is_weighted_median.
Qed.

Lemma WeightedMedian_perm (pb pb' : tally.ExchangeRateBallot) :
  pb ≡ₚ pb' -> tally.WeightedMedian pb = tally.WeightedMedian pb'.
Proof.
  intros Hp. destruct pb as [|v pb].
  { apply Permutation_nil in Hp as ->. reflexivity. }
  destruct pb' as [|v' pb'].
  { symmetry in Hp. by apply Permutation_nil in Hp. }
  destruct (WeightedMedian_returns (v :: pb)) as [r Hr]; [done|].
  destruct (WeightedMedian_returns (v' :: pb')) as [r' Hr']; [done|].
  rewrite Hr, Hr'. f_equal.
  apply (is_weighted_median_unique (v' :: pb')).
  - apply (is_weighted_median_perm (v :: pb)); [done|].
    by apply WeightedMedian_is_weighted_median.
  - by apply WeightedMedian_is_weighted_median.
Qed.

(** The spec's scenario: power 10 at rate 100 and power 5 at rate 105 give
    the rate 100, in either order of the votes; and two votes of equal
    power, where the accumulated power lands on the boundary between them,
    give the lower rate. *)
Example WeightedMedian_scenario :
  tally.WeightedMedian
    [ {| tally.ExchangeRate := 100; tally.Power := 10 |};
      {| tally.ExchangeRate := 105; tally.Power := 5 |} ] = Some 100 /\
  tally.WeightedMedian
    [ {| tally.ExchangeRate := 105; tally.Power := 5 |};
      {| tally.ExchangeRate := 100; tally.Power := 10 |} ] = Some 100 /\
  tally.WeightedMedian
    [ {| tally.ExchangeRate := 105; tally.Power := 5 |};
      {| tally.ExchangeRate := 100; tally.Power := 5 |} ] = Some 100.
Proof. repeat split; reflexivity. Qed.

(** C2: the weighted median of a ballot is the same for every ordering of
    its (exchangeRate, votingPower) pairs, hence the same on every run over
    the same pairs, and the same over any rate-sorted arrangement of them;
    and when the power accumulated over the sorted ballot is exactly half of
    the total at a vote [a] followed by a vote [b], not having reached half
    before [a], the result is the rate of [a], the lower of the two. *)
Theorem weighted_median_order_independent :
  (forall pb pb' : tally.ExchangeRateBallot,
     pb ≡ₚ pb' -> tally.WeightedMedian pb = tally.WeightedMedian pb') /\
  (forall pb s : tally.ExchangeRateBallot,
     s ≡ₚ pb -> tally.sorted s ->
     tally.walk (tally.TotalPower pb) 0 s = tally.WeightedMedian pb) /\
  (forall (pb l1 l2 : tally.ExchangeRateBallot) (a b : tally.VoteForTally),
     tally.sort pb = l1 ++ a :: b :: l2 ->
     (2 * (tally.TotalPower l1 + tally.Power a) = tally.TotalPower pb)%N ->
     (l1 <> [] -> (2 * tally.TotalPower l1 < tally.TotalPower pb)%N) ->
     tally.WeightedMedian pb = Some (tally.ExchangeRate a) /\
     tally.ExchangeRate a <= tally.ExchangeRate b).
Proof.
  split; [apply WeightedMedian_perm|].
  split; [apply walk_any_sorting|].
  intros pb l1 l2 a b Hsort Hhalf Hfirst. split.
  - unfold tally.WeightedMedian. rewrite Hsort.
    destruct l1 as [|w l1].
    + cbn. destruct (N.leb_spec (tally.TotalPower pb) (2 * (0 + tally.Power a)));
        [done|cbn in Hhalf; lia].
    + rewrite walk_skip by (specialize (Hfirst ltac:(done)); lia).
      cbn [tally.walk].
      destruct (N.leb_spec (tally.TotalPower pb)
                  (2 * (0 + tally.TotalPower (w :: l1) + tally.Power a)));
        [done|lia].
  - pose proof (sort_sorted pb) as Hs. rewrite Hsort in Hs.
    apply StronglySorted_app_1_r in Hs.
    apply StronglySorted_cons in Hs as [Hab _].
    by apply Forall_cons in Hab as [Hab _].
Qed.

(** * Properties of the digest and of the hexadecimal encoding *)

(** The digest on the test vectors of FIPS 180-4: the empty message, a
    message of one block and one of two blocks. *)
Example Sum256_vectors :
  EncodeToString (sha256.Sum256 (list_byte_of_string ""))
    = "e3b0c44298fc1c149afbf4c8996fb92427ae41e4649b934ca495991b7852b855" /\
  EncodeToString (sha256.Sum256 (list_byte_of_string "abc"))
    = "ba7816bf8f01cfea414140de5dae2223b00361a396177a9cb410ff61f20015ad" /\
  EncodeToString
    (sha256.Sum256
       (list_byte_of_string
          "abcdbcdecdefdefgefghfghighijhijkijkljklmklmnlmnomnopnopq"))
    = "248d6a61d20638b8e5c026930c3e6039a33ce45964ff2167f6ecedd419db06c1".
Proof. repeat split; vm_compute; reflexivity. Qed.

Lemma SumTruncated_length (bz : list byte) :
  len_bytes (SumTruncated bz) = tmhash.TruncatedSize.
Proof.
  unfold SumTruncated, len_bytes, sha256.Sum256.
  rewrite length_take, length_map, !length_app. cbn. reflexivity.
Qed.

(** Encoding a hash in hexadecimal and decoding it gives the hash back. *)
Lemma decode_encode_byte (b : byte) :
  hex.fromHexChar (hexdigit (Z.shiftr (Z_of_byte b) 4))
    = Some (Z.shiftr (Z_of_byte b) 4) /\
  hex.fromHexChar (hexdigit (Z.land (Z_of_byte b) 0x0f))
    = Some (Z.land (Z_of_byte b) 0x0f) /\
  byte_of_Z (Z.lor (Z.shiftl (Z.shiftr (Z_of_byte b) 4) 4)
                   (Z.land (Z_of_byte b) 0x0f)) = b.
Proof. destruct b; vm_compute; auto. Qed.

Lemma DecodeString_EncodeToString (bz : list byte) :
  hex.DecodeString (EncodeToString bz) = (bz, None).
Proof.
  induction bz as [|b bz IH]; [reflexivity|].
  cbn [EncodeToString hex.DecodeString].
  destruct (decode_encode_byte b) as (-> & -> & ->). by rewrite IH.
Qed.

(** * Further properties of the messages *)

Lemma BitLen_le_pow2 (d : sdk.Dec) (n : Z) :
  0 <= n -> (sdk.BitLen d <= n <-> Z.abs d < 2 ^ n).
Proof.
  intros Hn. rewrite BitLen_log2. destruct (Z.eqb_spec d 0) as [->|Hd].
  - change (Z.abs 0) with 0. pose proof (Z.pow_pos_nonneg 2 n). lia.
  - rewrite (Z.log2_lt_pow2 (Z.abs d) n) by lia. lia.
Qed.

Lemma rate_bound_nonneg : 0 <= 100 + sdk.DecimalPrecisionBits.
Proof. unfold sdk.DecimalPrecisionBits. lia. Qed.

(** Validation of a vote succeeds exactly when denom, feeder and validator
    are non-empty, the magnitude of the rate (the integer that the decimal
    holds) is below 2^(100 + DecimalPrecisionBits), and the salt has 1 to 4
    bytes. *)
Theorem vote_validation_succeeds_iff (msg : MsgExchangeRateVote.t) :
  MsgExchangeRateVote.ValidateBasic msg = None <->
  MsgExchangeRateVote.Denom msg <> EmptyString /\
  MsgExchangeRateVote.Feeder msg <> [] /\
  MsgExchangeRateVote.Validator msg <> [] /\
  Z.abs (MsgExchangeRateVote.ExchangeRate msg)
    < 2 ^ (100 + sdk.DecimalPrecisionBits) /\
  1 <= len_string (MsgExchangeRateVote.Salt msg) <= 4.
Proof.
  pose proof (BitLen_le_pow2 (MsgExchangeRateVote.ExchangeRate msg) _
                rate_bound_nonneg) as Hbound.
  unfold MsgExchangeRateVote.ValidateBasic. cbv zeta.
  split_tests; failure_cases.
Qed.

(** The checks of a vote are made in the order denom, feeder, validator,
    magnitude of the rate, salt, and the first one that fails gives the
    error: an empty denom gives UnknownDenom whatever the other fields are,
    and so on down to the salt, whose error carries its length. *)
Theorem vote_validation_order (msg : MsgExchangeRateVote.t) :
  (MsgExchangeRateVote.Denom msg = EmptyString ->
     MsgExchangeRateVote.ValidateBasic msg = Some ErrUnknowDenom) /\
  (MsgExchangeRateVote.Denom msg <> EmptyString ->
   MsgExchangeRateVote.Feeder msg = [] ->
     MsgExchangeRateVote.ValidateBasic msg = Some ErrInvalidAddress) /\
  (MsgExchangeRateVote.Denom msg <> EmptyString ->
   MsgExchangeRateVote.Feeder msg <> [] ->
   MsgExchangeRateVote.Validator msg = [] ->
     MsgExchangeRateVote.ValidateBasic msg = Some ErrInvalidAddress) /\
  (MsgExchangeRateVote.Denom msg <> EmptyString ->
   MsgExchangeRateVote.Feeder msg <> [] ->
   MsgExchangeRateVote.Validator msg <> [] ->
   2 ^ (100 + sdk.DecimalPrecisionBits)
     <= Z.abs (MsgExchangeRateVote.ExchangeRate msg) ->
     MsgExchangeRateVote.ValidateBasic msg
       = Some (ErrInvalidExchangeRate (MsgExchangeRateVote.ExchangeRate msg))) /\
  (MsgExchangeRateVote.Denom msg <> EmptyString ->
   MsgExchangeRateVote.Feeder msg <> [] ->
   MsgExchangeRateVote.Validator msg <> [] ->
   Z.abs (MsgExchangeRateVote.ExchangeRate msg)
     < 2 ^ (100 + sdk.DecimalPrecisionBits) ->
   (len_string (MsgExchangeRateVote.Salt msg) < 1 \/
    4 < len_string (MsgExchangeRateVote.Salt msg)) ->
     MsgExchangeRateVote.ValidateBasic msg
       = Some (ErrInvalidSaltLength (len_string (MsgExchangeRateVote.Salt msg)))).
Proof.
  pose proof (BitLen_le_pow2 (MsgExchangeRateVote.ExchangeRate msg) _
                rate_bound_nonneg) as Hbound.
  unfold MsgExchangeRateVote.ValidateBasic. cbv zeta.
  split_tests; failure_cases.
Qed.

(** The magnitude check of a vote in terms of the rate: validation fails
    with InvalidExchangeRateMagnitude exactly when denom, feeder and
    validator are non-empty and the magnitude of the rate is at least
    2^(100 + DecimalPrecisionBits), whatever the sign of the rate; the
    outcome of validation for a rate and for its opposite is of the same
    kind. *)
Theorem vote_rate_magnitude_bound (msg : MsgExchangeRateVote.t) :
  (fails_with (MsgExchangeRateVote.ValidateBasic msg)
              InvalidExchangeRateMagnitude <->
     MsgExchangeRateVote.Denom msg <> EmptyString /\
     MsgExchangeRateVote.Feeder msg <> [] /\
     MsgExchangeRateVote.Validator msg <> [] /\
     2 ^ (100 + sdk.DecimalPrecisionBits)
       <= Z.abs (MsgExchangeRateVote.ExchangeRate msg)) /\
  (forall k,
     fails_with (MsgExchangeRateVote.ValidateBasic msg) k <->
     fails_with
       (MsgExchangeRateVote.ValidateBasic
          (MsgExchangeRateVote.NewMsgExchangeRateVote
             (- MsgExchangeRateVote.ExchangeRate msg)
             (MsgExchangeRateVote.Salt msg) (MsgExchangeRateVote.Denom msg)
             (MsgExchangeRateVote.Feeder msg)
             (MsgExchangeRateVote.Validator msg))) k).
Proof.
  pose proof (BitLen_le_pow2 (MsgExchangeRateVote.ExchangeRate msg) _
                rate_bound_nonneg) as Hbound.
  split.
  - unfold MsgExchangeRateVote.ValidateBasic. cbv zeta.
    split_tests; failure_cases.
  - intros k. unfold MsgExchangeRateVote.ValidateBasic, fails_with.
    cbn [MsgExchangeRateVote.NewMsgExchangeRateVote MsgExchangeRateVote.Denom
         MsgExchangeRateVote.Feeder MsgExchangeRateVote.Validator
         MsgExchangeRateVote.Salt MsgExchangeRateVote.ExchangeRate].
    rewrite BitLen_opp. cbv zeta.
    split_tests; try reflexivity.
    split; intros (e & [= <-] & Hk); eexists; (split; [reflexivity|exact Hk]).
Qed.

(** Validation of a prevote succeeds exactly when the hash is a string of
    hexadecimal digits, twice as many as the truncated digest has bytes (40
    digits), and denom, feeder and validator are non-empty. *)
Theorem prevote_validation_succeeds_iff (msg : MsgExchangeRatePrevote.t) :
  MsgExchangeRatePrevote.ValidateBasic msg = None <->
  valid_hex_string (MsgExchangeRatePrevote.Hash msg) = true /\
  len_string (MsgExchangeRatePrevote.Hash msg) = 2 * tmhash.TruncatedSize /\
  MsgExchangeRatePrevote.Denom msg <> EmptyString /\
  MsgExchangeRatePrevote.Feeder msg <> [] /\
  MsgExchangeRatePrevote.Validator msg <> [].
Proof.
  pose proof (DecodeString_valid (MsgExchangeRatePrevote.Hash msg)) as Hvalid.
  pose proof (DecodeString_length (MsgExchangeRatePrevote.Hash msg)) as Hlen.
  unfold MsgExchangeRatePrevote.ValidateBasic.
  destruct (hex.DecodeString (MsgExchangeRatePrevote.Hash msg)) as [bz [cause|]];
    cbn [snd] in Hvalid.
  - split; [done|]. intros (Hv & _). apply Hvalid in Hv. done.
  - specialize (Hlen bz eq_refl).
    assert (valid_hex_string (MsgExchangeRatePrevote.Hash msg) = true) as ->
      by (by apply Hvalid).
    cbv zeta. split_tests; failure_cases.
Qed.

(** The two errors on the hash of a prevote, in terms of the hash string:
    InvalidHash exactly for a string that is not an even number of
    hexadecimal digits; InvalidHashLength exactly for a string of
    hexadecimal digits that has not 40 of them, and the error then carries
    half the number of digits. *)
Theorem prevote_hash_errors (msg : MsgExchangeRatePrevote.t) :
  (fails_with (MsgExchangeRatePrevote.ValidateBasic msg) InvalidHash <->
     valid_hex_string (MsgExchangeRatePrevote.Hash msg) = false) /\
  (fails_with (MsgExchangeRatePrevote.ValidateBasic msg) InvalidHashLength <->
     valid_hex_string (MsgExchangeRatePrevote.Hash msg) = true /\
     len_string (MsgExchangeRatePrevote.Hash msg) <> 2 * tmhash.TruncatedSize) /\
  (forall l,
     MsgExchangeRatePrevote.ValidateBasic msg = Some (ErrInvalidHashLength l) ->
     len_string (MsgExchangeRatePrevote.Hash msg) = 2 * l).
Proof.
  pose proof (DecodeString_valid (MsgExchangeRatePrevote.Hash msg)) as Hvalid.
  pose proof (DecodeString_length (MsgExchangeRatePrevote.Hash msg)) as Hlen.
  unfold MsgExchangeRatePrevote.ValidateBasic.
  destruct (hex.DecodeString (MsgExchangeRatePrevote.Hash msg)) as [bz [cause|]];
    cbn [snd] in Hvalid.
  - assert (valid_hex_string (MsgExchangeRatePrevote.Hash msg) = false) as ->.
    { destruct (valid_hex_string _); [|done].
      destruct Hvalid as [_ Hv]. by specialize (Hv eq_refl). }
    failure_cases.
  - specialize (Hlen bz eq_refl).
    assert (valid_hex_string (MsgExchangeRatePrevote.Hash msg) = true) as ->
      by (by apply Hvalid).
    cbv zeta. split_tests; failure_cases.
Qed.

(** The hexadecimal form of a digest is accepted as the hash of a prevote
    exactly when the digest has the truncated size: with it, validation
    succeeds if and only if the digest has 20 bytes and denom, feeder and
    validator are non-empty; in particular the truncated SHA-256 digest of
    any text is accepted. *)
Theorem prevote_accepts_encoded_digest (bz : list byte) (denom : string)
    (feeder : sdk.AccAddress) (validator : sdk.ValAddress) :
  (MsgExchangeRatePrevote.ValidateBasic
     (MsgExchangeRatePrevote.NewMsgExchangeRatePrevote
        (EncodeToString bz) denom feeder validator) = None <->
   len_bytes bz = tmhash.TruncatedSize /\
   denom <> EmptyString /\ feeder <> [] /\ validator <> []) /\
  (denom <> EmptyString -> feeder <> [] -> validator <> [] ->
   MsgExchangeRatePrevote.ValidateBasic
     (MsgExchangeRatePrevote.NewMsgExchangeRatePrevote
        (EncodeToString (SumTruncated bz)) denom feeder validator) = None).
Proof.
  unfold MsgExchangeRatePrevote.ValidateBasic.
  cbn [MsgExchangeRatePrevote.NewMsgExchangeRatePrevote
       MsgExchangeRatePrevote.Hash MsgExchangeRatePrevote.Denom
       MsgExchangeRatePrevote.Feeder MsgExchangeRatePrevote.Validator].
  rewrite !DecodeString_EncodeToString. cbv zeta.
  pose proof (SumTruncated_length bz) as Hsum.
  split_tests; failure_cases.
Qed.

Lemma prevote_accepts_encoded_digest_witness :
  MsgExchangeRatePrevote.ValidateBasic
    (MsgExchangeRatePrevote.NewMsgExchangeRatePrevote
       (EncodeToString (SumTruncated (list_byte_of_string "s1:1:ukrw:V1")))
       "ukrw" [x01] [x02]) = None.
Proof.
  apply (prevote_accepts_encoded_digest
           (list_byte_of_string "s1:1:ukrw:V1") "ukrw" [x01] [x02]); done.
Defined.

(** The decoder reads the letters of a hash in either case. *)
Lemma fromHexChar_lower (c : ascii) :
  hex.fromHexChar (lower c) = hex.fromHexChar c.
Proof. destruct c as [[] [] [] [] [] [] [] []]; vm_compute; reflexivity. Qed.

Lemma DecodeString_ToLower_pair (s : string) :
  ((hex.DecodeString (ToLower s)).1 = (hex.DecodeString s).1 /\
   ((hex.DecodeString (ToLower s)).2 = None <-> (hex.DecodeString s).2 = None)) /\
  (forall c,
     (hex.DecodeString (ToLower (String c s))).1
       = (hex.DecodeString (String c s)).1 /\
     ((hex.DecodeString (ToLower (String c s))).2 = None <->
      (hex.DecodeString (String c s)).2 = None)).
Proof.
  induction s as [|d s [IH1 IH2]].
  - split; [done|]. intros c. cbn [ToLower hex.DecodeString].
    rewrite fromHexChar_lower. by destruct (hex.fromHexChar c).
  - split; [apply IH2|]. intros c. cbn [ToLower hex.DecodeString].
    rewrite !fromHexChar_lower.
    destruct (hex.fromHexChar c); [|done].
    destruct (hex.fromHexChar d); [|done].
    destruct (hex.DecodeString (ToLower s)) as [bz' err'].
    destruct (hex.DecodeString s) as [bz err]. cbn in *.
    destruct IH1 as [-> IH1]. done.
Qed.

(** Validation of a prevote does not depend on the case of the letters of
    its hash: with the hash in lower case the outcome is a success if it was
    one, and an error of the same kind otherwise. *)
Theorem prevote_hash_case_insensitive (msg : MsgExchangeRatePrevote.t) :
  let msg' :=
    MsgExchangeRatePrevote.NewMsgExchangeRatePrevote
      (ToLower (MsgExchangeRatePrevote.Hash msg))
      (MsgExchangeRatePrevote.Denom msg)
      (MsgExchangeRatePrevote.Feeder msg)
      (MsgExchangeRatePrevote.Validator msg) in
  (MsgExchangeRatePrevote.ValidateBasic msg' = None <->
   MsgExchangeRatePrevote.ValidateBasic msg = None) /\
  (forall k,
     fails_with (MsgExchangeRatePrevote.ValidateBasic msg') k <->
     fails_with (MsgExchangeRatePrevote.ValidateBasic msg) k).
Proof.
  cbv zeta. unfold MsgExchangeRatePrevote.ValidateBasic, fails_with.
  cbn [MsgExchangeRatePrevote.NewMsgExchangeRatePrevote
       MsgExchangeRatePrevote.Hash MsgExchangeRatePrevote.Denom
       MsgExchangeRatePrevote.Feeder MsgExchangeRatePrevote.Validator].
  destruct (DecodeString_ToLower_pair (MsgExchangeRatePrevote.Hash msg))
    as [[Hbz Herr] _].
  destruct (hex.DecodeString (ToLower (MsgExchangeRatePrevote.Hash msg)))
    as [bz' [cause'|]];
    destruct (hex.DecodeString (MsgExchangeRatePrevote.Hash msg))
    as [bz [cause|]]; cbn in Hbz, Herr.
  - split; [done|]. intros k.
    split; intros (e & [= <-] & Hk); eexists; (split; [reflexivity|exact Hk]).
  - destruct Herr as [_ Herr]. by specialize (Herr eq_refl).
  - destruct Herr as [Herr _]. by specialize (Herr eq_refl).
  - subst bz'. done.
Qed.

(** The errors of the three validations are of the kinds of their checks
    and of no other: a prevote fails with InvalidHash, InvalidHashLength,
    UnknownDenom or InvalidAddress, a vote with UnknownDenom,
    InvalidAddress, InvalidExchangeRateMagnitude or InvalidSaltLength, and a
    feeder delegation with InvalidAddress only. *)
Theorem validation_error_kinds :
  (forall (msg : MsgExchangeRatePrevote.t) (e : error),
     MsgExchangeRatePrevote.ValidateBasic msg = Some e ->
     kind_of e ∈ [InvalidHash; InvalidHashLength; UnknownDenom; InvalidAddress]) /\
  (forall (msg : MsgExchangeRateVote.t) (e : error),
     MsgExchangeRateVote.ValidateBasic msg = Some e ->
     kind_of e ∈ [UnknownDenom; InvalidAddress; InvalidExchangeRateMagnitude;
                  InvalidSaltLength]) /\
  (forall (msg : MsgDelegateFeedConsent.t) (e : error),
     MsgDelegateFeedConsent.ValidateBasic msg = Some e ->
     e = ErrInvalidAddress).
Proof.
  split; [|split]; intros msg e.
  - unfold MsgExchangeRatePrevote.ValidateBasic.
    destruct (hex.DecodeString _) as [bz [cause|]]; cbv zeta.
    + intros [= <-]. apply list_elem_of_In; cbn; tauto.
    + split_tests; intros [= <-]; apply list_elem_of_In; cbn; tauto.
  - unfold MsgExchangeRateVote.ValidateBasic. cbv zeta.
    split_tests; intros [= <-]; apply list_elem_of_In; cbn; tauto.
  - unfold MsgDelegateFeedConsent.ValidateBasic.
    split_tests; intros [= <-]; reflexivity.
Qed.


(** * Properties of the commands of the client *)

Lemma GetString_unset (flags : gmap string string) (name : string) :
  flags !! name = None -> cli.GetString flags name = EmptyString.
Proof. unfold cli.GetString. by intros ->. Qed.

Section cli_facts.

Context {E Msg : Type}.
Variable NewMsgPriceFeed :
  string -> sdk.Dec -> sdk.AccAddress -> sdk.ValAddress -> Msg.
Variable NewMsgDelegateFeederPermission :
  sdk.ValAddress -> sdk.AccAddress -> Msg.
Variable ValidateBasic : Msg -> option E.
Variable ValAddressFromBech32 : string -> E + sdk.ValAddress.
Variable AccAddressFromBech32 : string -> E + sdk.AccAddress.
Variable NewDecFromStr : string -> E + sdk.Dec.

Local Abbreviation vote_command :=
  (cli.GetCmdPriceVote NewMsgPriceFeed ValidateBasic
     ValAddressFromBech32 NewDecFromStr).

Local Abbreviation delegate_command :=
  (cli.GetCmdDelegateFeederPermission NewMsgDelegateFeederPermission
     ValidateBasic AccAddressFromBech32).

(** Case analysis on the steps of a command, in the order in which it makes
    them. *)
Ltac command_steps :=
  repeat match goal with
  | |- context [match cli.EnsureAccountExists ?c with _ => _ end] =>
      destruct (cli.EnsureAccountExists c) eqn:?
  | |- context [len_string ?s =? 0] =>
      let H := fresh "Hflag" in
      destruct (len_string s =? 0) eqn:H;
      [apply len_string_0 in H | apply len_string_nonempty in H];
      cbn [negb]
  | |- context [match ValAddressFromBech32 ?s with _ => _ end] =>
      destruct (ValAddressFromBech32 s) eqn:?
  | |- context [match AccAddressFromBech32 ?s with _ => _ end] =>
      destruct (AccAddressFromBech32 s) eqn:?
  | |- context [match NewDecFromStr ?s with _ => _ end] =>
      destruct (NewDecFromStr s) eqn:?
  | |- context [match ValidateBasic ?m with _ => _ end] =>
      destruct (ValidateBasic m) eqn:?
  end.

(** The vote command hands messages over for broadcast exactly when the
    account exists, the denom and price flags are set, the validator flag,
    if set, parses, the price parses and the message passes its validation;
    it then hands over the single message built from the denom, the parsed
    price, the sender as feeder, and as validator the parsed flag or, with
    no flag, the sender's own address. *)
Theorem vote_command_broadcasts_iff (cliCtx : cli.CLIContext)
    (flags : gmap string string) (msgs : list Msg) :
  vote_command cliCtx flags = cli.GenerateOrBroadcastMsgs msgs <->
  cli.EnsureAccountExists cliCtx = None /\
  cli.GetString flags cli.flagDenom <> EmptyString /\
  cli.GetString flags cli.flagPrice <> EmptyString /\
  exists (validator : sdk.ValAddress) (price : sdk.Dec),
    (cli.GetString flags cli.flagValidator = EmptyString /\
       validator = cli.GetFromAddress cliCtx \/
     cli.GetString flags cli.flagValidator <> EmptyString /\
       ValAddressFromBech32 (cli.GetString flags cli.flagValidator)
         = inr validator) /\
    NewDecFromStr (cli.GetString flags cli.flagPrice) = inr price /\
    ValidateBasic
      (NewMsgPriceFeed (cli.GetString flags cli.flagDenom) price
         (cli.GetFromAddress cliCtx) validator) = None /\
    msgs = [NewMsgPriceFeed (cli.GetString flags cli.flagDenom) price
              (cli.GetFromAddress cliCtx) validator].
Proof.
  unfold cli.GetCmdPriceVote. cbv zeta. command_steps.
  all: split;
    [ intros Heq; try discriminate Heq; injection Heq as <-
    | intros (Hacc & Hdenom & Hprice & validator & price &
              [[Hval ->]|[Hval Hparse]] & Hdec & Hvalid & ->) ];
    try congruence.
  all: try (repeat split; try done; eexists _, _; split; [|done]; eauto; fail).
  all: simplify_eq; congruence.
Qed.

(** The errors of the vote command, in the order of its steps: a missing
    account first, then a missing denom flag, a missing price flag, a
    validator flag that does not parse (reported before the price is
    parsed), a price that does not parse, and last the error of the
    validation of the message. *)
Theorem vote_command_errors (cliCtx : cli.CLIContext)
    (flags : gmap string string) :
  (forall err, cli.EnsureAccountExists cliCtx = Some err ->
     vote_command cliCtx flags = cli.Return (cli.Lib err)) /\
  (cli.EnsureAccountExists cliCtx = None ->
   cli.GetString flags cli.flagDenom = EmptyString ->
     vote_command cliCtx flags
       = cli.Return (cli.Errorf "--denom flag is required")) /\
  (cli.EnsureAccountExists cliCtx = None ->
   cli.GetString flags cli.flagDenom <> EmptyString ->
   cli.GetString flags cli.flagPrice = EmptyString ->
     vote_command cliCtx flags
       = cli.Return (cli.Errorf "--price flag is required")) /\
  (forall err,
   cli.EnsureAccountExists cliCtx = None ->
   cli.GetString flags cli.flagDenom <> EmptyString ->
   cli.GetString flags cli.flagPrice <> EmptyString ->
   cli.GetString flags cli.flagValidator <> EmptyString ->
   ValAddressFromBech32 (cli.GetString flags cli.flagValidator) = inl err ->
     vote_command cliCtx flags
       = cli.Return (cli.Wrap err "validator address is invalid")) /\
  (forall err,
   cli.EnsureAccountExists cliCtx = None ->
   cli.GetString flags cli.flagDenom <> EmptyString ->
   cli.GetString flags cli.flagPrice <> EmptyString ->
   (cli.GetString flags cli.flagValidator = EmptyString \/
    exists validator,
      ValAddressFromBech32 (cli.GetString flags cli.flagValidator)
        = inr validator) ->
   NewDecFromStr (cli.GetString flags cli.flagPrice) = inl err ->
     vote_command cliCtx flags
       = cli.Return
           (cli.Errorf
              ("given price {" +:+ cli.GetString flags cli.flagPrice +:+
               "} is not a valid format; price should be formatted as float"))) /\
  (forall err validator price,
   cli.EnsureAccountExists cliCtx = None ->
   cli.GetString flags cli.flagDenom <> EmptyString ->
   cli.GetString flags cli.flagPrice <> EmptyString ->
   (cli.GetString flags cli.flagValidator = EmptyString /\
      validator = cli.GetFromAddress cliCtx \/
    cli.GetString flags cli.flagValidator <> EmptyString /\
      ValAddressFromBech32 (cli.GetString flags cli.flagValidator)
        = inr validator) ->
   NewDecFromStr (cli.GetString flags cli.flagPrice) = inr price ->
   ValidateBasic
     (NewMsgPriceFeed (cli.GetString flags cli.flagDenom) price
        (cli.GetFromAddress cliCtx) validator) = Some err ->
     vote_command cliCtx flags = cli.Return (cli.Lib err)).
Proof.
  unfold cli.GetCmdPriceVote. cbv zeta. command_steps.
  all: repeat split; intros; simplify_eq; try done.
  all: repeat match goal with
       | H : _ \/ _ |- _ => destruct H
       | H : _ /\ _ |- _ => destruct H
       | H : ex _ |- _ => destruct H
       end; simplify_eq; try done.
  all: congruence.
Qed.

(** The delegation command hands messages over for broadcast exactly when
    the account exists, the delegate flag is set and parses, and the message
    passes its validation; it then hands over the single message that
    delegates from the sender's own validator address to the parsed
    delegate. *)
Theorem delegate_command_broadcasts_iff (cliCtx : cli.CLIContext)
    (flags : gmap string string) (msgs : list Msg) :
  delegate_command cliCtx flags = cli.GenerateOrBroadcastMsgs msgs <->
  cli.EnsureAccountExists cliCtx = None /\
  cli.GetString flags cli.flagDelegate <> EmptyString /\
  exists delegate : sdk.AccAddress,
    AccAddressFromBech32 (cli.GetString flags cli.flagDelegate) = inr delegate /\
    ValidateBasic
      (NewMsgDelegateFeederPermission (cli.GetFromAddress cliCtx) delegate)
      = None /\
    msgs = [NewMsgDelegateFeederPermission (cli.GetFromAddress cliCtx) delegate].
Proof.
  unfold cli.GetCmdDelegateFeederPermission. cbv zeta. command_steps.
  all: split;
    [ intros Heq; try discriminate Heq; injection Heq as <-
    | intros (Hacc & Hflag' & delegate & Hparse & Hvalid & ->) ];
    try congruence.
  all: try (repeat split; try done; eexists; split; [|done]; eauto; fail).
  all: simplify_eq; congruence.
Qed.

(** The errors of the delegation command, in the order of its steps: a
    missing account, a missing delegate flag, a delegate that does not
    parse, and the error of the validation of the message. *)
Theorem delegate_command_errors (cliCtx : cli.CLIContext)
    (flags : gmap string string) :
  (forall err, cli.EnsureAccountExists cliCtx = Some err ->
     delegate_command cliCtx flags = cli.Return (cli.Lib err)) /\
  (cli.EnsureAccountExists cliCtx = None ->
   cli.GetString flags cli.flagDelegate = EmptyString ->
     delegate_command cliCtx flags
       = cli.Return (cli.Errorf "--delegate flag is required")) /\
  (forall err,
   cli.EnsureAccountExists cliCtx = None ->
   cli.GetString flags cli.flagDelegate <> EmptyString ->
   AccAddressFromBech32 (cli.GetString flags cli.flagDelegate) = inl err ->
     delegate_command cliCtx flags
       = cli.Return (cli.Wrap err "delegate is not a valid account address")) /\
  (forall err delegate,
   cli.EnsureAccountExists cliCtx = None ->
   cli.GetString flags cli.flagDelegate <> EmptyString ->
   AccAddressFromBech32 (cli.GetString flags cli.flagDelegate) = inr delegate ->
   ValidateBasic
     (NewMsgDelegateFeederPermission (cli.GetFromAddress cliCtx) delegate)
     = Some err ->
     delegate_command cliCtx flags = cli.Return (cli.Lib err)).
Proof.
  unfold cli.GetCmdDelegateFeederPermission. cbv zeta. command_steps.
  all: repeat split; intros; simplify_eq; done.
Qed.

End cli_facts.

Lemma vote_command_errors_witness :
  sample_vote_command sample_cliCtx (<["price" := "12"]> ∅)
  = cli.Return (cli.Errorf "--denom flag is required").
Proof.
  apply (vote_command_errors SamplePriceFeed sample_ValidateBasic
           sample_AddressFromBech32 sample_NewDecFromStr
           sample_cliCtx (<["price" := "12"]> ∅)); reflexivity.
Defined.

Lemma delegate_command_errors_witness :
  sample_delegate_command sample_cliCtx ∅
  = cli.Return (cli.Errorf "--delegate flag is required").
Proof.
  apply (delegate_command_errors SampleDelegateFeederPermission
           sample_ValidateBasic sample_AddressFromBech32
           sample_cliCtx ∅); reflexivity.
Defined.
